(** * DatabaseManager (test-codebase/database.py)

    A shallow embedding of the [DatabaseManager] class: a manager object
    holding a path and an optional [sqlite3] connection, with the three
    methods [connect], [execute_query] and [close].

    The class is a thin layer over Python's [sqlite3] module, so the
    development has two parts:
    - the part of [sqlite3] the class touches (connection objects, their
      [row_factory] attribute, cursors), over an abstract SQL engine;
    - the class itself, written in a state-and-exception monad that follows
      the Python text statement by statement. *)

From stdpp Require Import base option list gmap strings.

Set Default Proof Using "Type".

(** ** Outcomes of a Python call: a value is returned or an exception is
    raised.  Mutations made before a raise persist, so every computation
    yields a final state together with its outcome. *)

Inductive outcome (E A : Type) : Type :=
| Returns (a : A)
| Raises (e : E).
Arguments Returns {E A} a.
Arguments Raises {E A} e.

(** ** The SQL engine

    What SQLite itself does is not part of the repository: which paths can
    be opened, which statements are accepted and what rows they yield.  It
    is an interface; every theorem about the manager holds for every
    implementation of it.  Connections are named by the handle ([nat]) of
    the Python object that stands for them. *)

Class Engine : Type := {
  (** a value bound to a parameter or stored in a column (Python's [Any]) *)
  value : Type;
  (** the database files and the sessions the engine has on them *)
  engine : Type;
  (** an error the engine reports ([sqlite3.Error] and its subclasses) *)
  sql_error : Type;
  (** open the file at a path for a new connection *)
  engine_open : nat -> string -> engine -> engine * outcome sql_error unit;
  (** run one statement on a connection; the parameters are absent when
      [Cursor.execute] is called with the statement alone.  A result row is
      the list of its columns, each a name and a value, in column order. *)
  engine_run : nat -> string -> option (gmap string value) -> engine ->
               engine * outcome sql_error (list (list (string * value)));
  (** end the session of a connection *)
  engine_close : nat -> engine -> engine
}.

Section Manager.
Context `{Eng : Engine}.

Definition params : Type := option (gmap string value).
Definition record : Type := list (string * value).

(** ** The [sqlite3] objects *)

(** [Connection.row_factory]: [None] (the default, rows are plain tuples) or
    [sqlite3.Row] (rows are mappings addressable by column name). *)
Inductive row_factory : Type :=
| TupleFactory
| RowFactory.

Inductive row : Type :=
| Tuple (values : list value)
| Row (columns : record).

Definition make_row (f : row_factory) (r : record) : row :=
  match f with
  | TupleFactory => Tuple (map snd r)
  | RowFactory => Row r
  end.

(** [Row.keys()]: the column names of a row; a tuple has none. *)
Definition keys (r : row) : option (list string) :=
  match r with
  | Tuple _ => None
  | Row cols => Some (map fst cols)
  end.

Record Connection : Type := {
  conn_row_factory : row_factory;
  conn_closed : bool
}.

Record Cursor : Type := {
  cur_connection : nat;
  cur_row_factory : row_factory;
  cur_rows : list record
}.

(** The world outside the manager: the [sqlite3.Connection] objects
    allocated so far (the handle of an object is its index, so a new object
    is distinct from every earlier one) and the state of the engine. *)
Record world : Type := {
  objects : list Connection;
  eng : engine
}.

Definition with_eng (w : world) (g : engine) : world :=
  {| objects := objects w; eng := g |}.

Definition is_open (w : world) (h : nat) : bool :=
  match objects w !! h with
  | Some o => negb (conn_closed o)
  | None => false
  end.

Inductive exception : Type :=
| ClosedDatabase              (** ProgrammingError: Cannot operate on a closed database. *)
| Sqlite3Error (e : sql_error).

(** ** The manager and its monad *)

Record DatabaseManager : Type := {
  db_path : string;
  connection : option nat
}.

Definition state : Type := DatabaseManager * world.

Definition Py (A : Type) : Type := state -> state * outcome exception A.

Definition ret {A} (a : A) : Py A := fun s => (s, Returns a).

Definition bind {A B} (m : Py A) (k : A -> Py B) : Py B := fun s =>
  match m s with
  | (s1, Returns a) => k a s1
  | (s1, Raises e) => (s1, Raises e)
  end.

Notation "x <- m ;; k" := (bind m (fun x => k))
  (at level 100, m at next level, right associativity).

(** A library call acts on the world only: it cannot reach the manager. *)
Definition Lib (A : Type) : Type := world -> world * outcome exception A.

Definition lift {A} (f : Lib A) : Py A := fun s =>
  match f (snd s) with
  | (w1, r) => ((fst s, w1), r)
  end.

(** [self.db_path], [self.connection] and [self.connection = c]. *)
Definition get_db_path : Py string := fun s => (s, Returns (db_path (fst s))).

Definition get_connection : Py (option nat) := fun s =>
  (s, Returns (connection (fst s))).

Definition set_connection (c : option nat) : Py unit := fun s =>
  (({| db_path := db_path (fst s); connection := c |}, snd s), Returns tt).

(** ** The library calls *)

(** [sqlite3.connect(path)]: a new connection object with the default row
    factory when the engine opens the path, the engine's error otherwise. *)
Definition sqlite3_connect (path : string) : Lib nat := fun w =>
  let h := length (objects w) in
  match engine_open h path (eng w) with
  | (g, Returns _) =>
      ({| objects := objects w ++ [{| conn_row_factory := TupleFactory;
                                      conn_closed := false |}];
          eng := g |}, Returns h)
  | (g, Raises e) => (with_eng w g, Raises (Sqlite3Error e))
  end.

(** [conn.row_factory = f] *)
Definition set_row_factory (h : nat) (f : row_factory) : Lib unit := fun w =>
  ({| objects := alter (fun o => {| conn_row_factory := f;
                                    conn_closed := conn_closed o |}) h (objects w);
      eng := eng w |}, Returns tt).

(** The check every cursor operation starts with. *)
Definition check_connection (h : nat) : Lib unit := fun w =>
  if is_open w h then (w, Returns tt) else (w, Raises ClosedDatabase).

(** [conn.cursor()]: the new cursor takes the row factory of its
    connection. *)
Definition Connection_cursor (h : nat) : Lib Cursor := fun w =>
  match objects w !! h with
  | Some o =>
      if conn_closed o then (w, Raises ClosedDatabase)
      else (w, Returns {| cur_connection := h;
                          cur_row_factory := conn_row_factory o;
                          cur_rows := [] |})
  | None => (w, Raises ClosedDatabase)
  end.

(** [cursor.execute(query, parameters)] and [cursor.execute(query)]: the
    result rows wait in the cursor.  The engine is taken to evaluate the
    whole statement here; an error SQLite would report while a later row is
    fetched is raised from inside [execute_query] all the same. *)
Definition Cursor_execute (c : Cursor) (query : string) (p : params) : Lib Cursor :=
  fun w =>
  match check_connection (cur_connection c) w with
  | (w0, Raises e) => (w0, Raises e)
  | (w0, Returns _) =>
      match engine_run (cur_connection c) query p (eng w0) with
      | (g, Returns rs) =>
          (with_eng w0 g, Returns {| cur_connection := cur_connection c;
                                    cur_row_factory := cur_row_factory c;
                                    cur_rows := rs |})
      | (g, Raises e) => (with_eng w0 g, Raises (Sqlite3Error e))
      end
  end.

(** [cursor.fetchall()]: every waiting row, in order, built by the cursor's
    row factory. *)
Definition Cursor_fetchall (c : Cursor) : Lib (list row) := fun w =>
  match check_connection (cur_connection c) w with
  | (w0, Raises e) => (w0, Raises e)
  | (w0, Returns _) => (w0, Returns (map (make_row (cur_row_factory c)) (cur_rows c)))
  end.

(** [conn.close()]: does not raise (the model has one thread); closing a
    closed connection does nothing. *)
Definition Connection_close (h : nat) : Lib unit := fun w =>
  if is_open w h then
    ({| objects := alter (fun o => {| conn_row_factory := conn_row_factory o;
                                      conn_closed := true |}) h (objects w);
        eng := engine_close h (eng w) |}, Returns tt)
  else (w, Returns tt).

(** ** The class *)

(** [__init__(self, db_path)] *)
Definition __init__ (path : string) : DatabaseManager :=
  {| db_path := path; connection := None |}.

(** [connect(self)].  A connection object is always truthy, so
    [not self.connection] holds exactly when the field is [None].  Lines 14
    and 15 read back the field assigned on line 13. *)
Definition connect : Py nat :=
  held <- get_connection ;;
  match held with
  | None =>
      path <- get_db_path ;;
      h <- lift (sqlite3_connect path) ;;
      _ <- set_connection (Some h) ;;
      _ <- lift (set_row_factory h RowFactory) ;;
      ret h
  | Some h => ret h
  end.

(** Truth value of [params]: [None] and the empty dict are falsy. *)
Definition truthy (p : params) : bool :=
  match p with
  | Some d => negb (Nat.eqb (size d) 0)
  | None => false
  end.

(** [execute_query(self, query, params=None)] *)
Definition execute_query (query : string) (p : params) : Py (list row) :=
  conn <- connect ;;
  cursor <- lift (Connection_cursor conn) ;;
  cursor <- (if truthy p
             then lift (Cursor_execute cursor query p)
             else lift (Cursor_execute cursor query None)) ;;
  lift (Cursor_fetchall cursor).

(** [close(self)] *)
Definition close : Py unit :=
  held <- get_connection ;;
  match held with
  | Some h =>
      _ <- lift (Connection_close h) ;;
      set_connection None
  | None => ret tt
  end.

(** The parameters [execute_query] hands to [Cursor.execute]: the mapping
    when it is truthy, none otherwise (lines 22 to 25). *)
Definition effective (p : params) : params :=
  if truthy p then p else None.

(** ** Sequences of calls

    A caller drives the manager by a sequence of method calls; a raised
    exception is the caller's to handle, and the next call finds the state
    the raise left. *)

Inductive call : Type :=
| Connect
| ExecuteQuery (query : string) (p : params)
| Close.

Definition is_close (c : call) : bool :=
  match c with
  | Close => true
  | _ => false
  end.

Definition perform (c : call) (s : state) : state :=
  match c with
  | Connect => fst (connect s)
  | ExecuteQuery query p => fst (execute_query query p s)
  | Close => fst (close s)
  end.

Fixpoint run (cs : list call) (s : state) : state :=
  match cs with
  | [] => s
  | c :: cs' => run cs' (perform c s)
  end.

(** ** Live connections

    A manager created when the world had [n0] connection objects can only
    have opened the objects from handle [n0] on.  [live_handles] lists the
    ones among them that are still open. *)

Definition live_handles (n0 : nat) (w : world) : list nat :=
  List.filter (is_open w) (seq n0 (length (objects w) - n0)).

(** At most one live connection: none when the field is [None]; when the
    field holds [c], only [c], and [c] is the object allocated last. *)
Definition one_live (n0 : nat) (s : state) : Prop :=
  match connection (fst s) with
  | Some c => live_handles n0 (snd s) = [c] /\ S c = length (objects (snd s))
  | None => live_handles n0 (snd s) = []
  end.

(** The connection the field holds is open and yields [sqlite3.Row] rows. *)
Definition holds_open (s : state) : Prop :=
  match connection (fst s) with
  | Some c => objects (snd s) !! c =
              Some {| conn_row_factory := RowFactory; conn_closed := false |}
  | None => True
  end.

(** The pointwise form of [one_live], kept by every method. *)
Definition tracked (n0 : nat) (s : state) : Prop :=
  n0 <= length (objects (snd s)) /\
  match connection (fst s) with
  | Some c =>
      n0 <= c /\ S c = length (objects (snd s)) /\
      objects (snd s) !! c =
        Some {| conn_row_factory := RowFactory; conn_closed := false |} /\
      forall h, n0 <= h -> h <> c -> is_open (snd s) h = false
  | None => forall h, n0 <= h -> is_open (snd s) h = false
  end.

(** The [close] calls of a sequence, and whether a manager holds a
    connection, as numbers: they bound the connections a manager opens. *)
Definition closes (cs : list call) : nat :=
  length (List.filter is_close cs).

Definition held (s : state) : nat :=
  match connection (fst s) with
  | Some _ => 1
  | None => 0
  end.

End Manager.

(** ** A small engine to run the model on

    One table [t] with the rows (1, a) and (2, b).  The engine opens every
    path but the empty one, answers [SELECT 1] and the lookup of a row of
    [t] by its [id], and rejects every other statement.  Its state counts
    the statements it was given. *)

Inductive toy_value : Type :=
| VInt (z : Z)
| VText (s : string).

Inductive toy_error : Type :=
| UnableToOpen
| SyntaxError
| MissingParameter.

Definition toy_table : list (Z * string) := [(1%Z, "a"); (2%Z, "b")].

Definition toy_record (r : Z * string) : list (string * toy_value) :=
  [("id", VInt (fst r)); ("name", VText (snd r))].

Definition toy_open (h : nat) (path : string) (g : nat)
  : nat * outcome toy_error unit :=
  if String.eqb path "" then (g, Raises UnableToOpen) else (g, Returns tt).

Definition toy_run (h : nat) (query : string)
    (p : option (gmap string toy_value)) (g : nat)
  : nat * outcome toy_error (list (list (string * toy_value))) :=
  if String.eqb query "SELECT 1" then (S g, Returns [[("1", VInt 1)]])
  else if String.eqb query "SELECT * FROM t WHERE id = :id" then
    match p with
    | Some d =>
        match d !! "id" with
        | Some (VInt i) =>
            (S g, Returns (map toy_record
                             (List.filter (fun r => Z.eqb (fst r) i) toy_table)))
        | _ => (S g, Raises MissingParameter)
        end
    | None => (S g, Raises MissingParameter)
    end
  else (S g, Raises SyntaxError).

Definition toy : Engine := {|
  value := toy_value;
  engine := nat;
  sql_error := toy_error;
  engine_open := toy_open;
  engine_run := toy_run;
  engine_close := fun _ g => g
|}.

(** A world with no connection object yet, and a manager after
    [DatabaseManager("app.db")] in it. *)
Definition toy_world : @world toy := @Build_world toy [] 0.

Definition toy_fresh : @state toy := (__init__ "app.db", toy_world).

Definition toy_open_row : Connection :=
  {| conn_row_factory := RowFactory; conn_closed := false |}.

(** The manager of [toy_fresh] once connected, and once closed again. *)
Definition toy_connected : @state toy :=
  ({| db_path := "app.db"; connection := Some 0 |},
   @Build_world toy [toy_open_row] 0).

Definition toy_closed : @state toy :=
  ({| db_path := "app.db"; connection := None |},
   @Build_world toy [{| conn_row_factory := RowFactory; conn_closed := true |}] 0).

(** A manager whose caller has closed the connection [connect] gave it,
    and one whose caller has reset the row factory of that connection. *)
Definition toy_stale : @state toy :=
  ({| db_path := "app.db"; connection := Some 0 |},
   @Build_world toy [{| conn_row_factory := RowFactory; conn_closed := true |}] 0).

Definition toy_tuples : @state toy :=
  ({| db_path := "app.db"; connection := Some 0 |},
   @Build_world toy [{| conn_row_factory := TupleFactory; conn_closed := false |}] 0).

(** ** The model at work *)

Example toy_select_1 :
  @execute_query toy "SELECT 1" None toy_fresh =
    (({| db_path := "app.db"; connection := Some 0 |},
      @Build_world toy [toy_open_row] 1),
     Returns [@Row toy [("1", VInt 1)]]).
Proof. vm_compute. reflexivity. Qed.

Example toy_select_by_id :
  @execute_query toy "SELECT * FROM t WHERE id = :id"
     (Some {["id" := VInt 2]}) toy_fresh =
    (({| db_path := "app.db"; connection := Some 0 |},
      @Build_world toy [toy_open_row] 1),
     Returns [@Row toy [("id", VInt 2); ("name", VText "b")]]).
Proof. vm_compute. reflexivity. Qed.

Example toy_invalid_path :
  @connect toy (__init__ "", toy_world) =
    ((__init__ "", toy_world), Raises (@Sqlite3Error toy UnableToOpen)).
Proof. vm_compute. reflexivity. Qed.

Section Properties.
Context `{Eng : Engine}.

Implicit Types (s : state) (w : world) (h : nat) (p : params) (c : call).

(** Unfolds one layer of the monad and of the field accessors. *)
Ltac step_py :=
  unfold bind, lift, ret, get_connection, get_db_path, set_connection; simpl.

(** *** [connect] *)

(** With a connection in the field, [connect] returns it and touches
    nothing. *)
Lemma connect_held s h :
  connection (fst s) = Some h -> connect s = (s, Returns h).
Proof.
  intros Hc. unfold connect. step_py. rewrite Hc. reflexivity.
Qed.

Lemma alter_new_object {A} (f : A -> A) (l : list A) (x : A) :
  alter f (length l) (l ++ [x]) = l ++ [f x].
Proof.
  replace (length l) with (length l + 0) at 1 by lia.
  rewrite alter_app_r. reflexivity.
Qed.

(** With no connection in the field, [connect] is decided by the engine:
    on success the new object is stored in the field and given the [Row]
    factory; on failure only the engine has moved. *)
Lemma connect_absent s :
  connection (fst s) = None ->
  connect s =
    let h := length (objects (snd s)) in
    match engine_open h (db_path (fst s)) (eng (snd s)) with
    | (g, Returns _) =>
        (({| db_path := db_path (fst s); connection := Some h |},
          {| objects := objects (snd s) ++
                        [{| conn_row_factory := RowFactory; conn_closed := false |}];
             eng := g |}), Returns h)
    | (g, Raises e) => ((fst s, with_eng (snd s) g), Raises (Sqlite3Error e))
    end.
Proof.
  intros Hc. destruct s as [self w]. simpl in *.
  unfold connect. step_py. rewrite Hc. step_py.
  unfold sqlite3_connect. simpl.
  destruct (engine_open (length (objects w)) (db_path self) (eng w)) as [g [[]|e]];
    simpl; [|reflexivity].
  unfold set_row_factory. simpl. rewrite alter_new_object. reflexivity.
Qed.

(** Whatever [connect] returns is what the field holds afterwards. *)
Lemma connect_returns_field s s1 h :
  connect s = (s1, Returns h) -> connection (fst s1) = Some h.
Proof.
  destruct (connection (fst s)) as [c|] eqn:Hc.
  - rewrite (connect_held s c Hc). intros [= <- <-]. exact Hc.
  - rewrite (connect_absent s Hc). simpl.
    destruct (engine_open _ _ _) as [g [[]|e]]; intros [= <- <-]. reflexivity.
Qed.

(** *** [execute_query] and [close], by the field *)

Lemma execute_query_unfold query p s :
  execute_query query p s =
    match connect s with
    | (s1, Returns h) =>
        match Connection_cursor h (snd s1) with
        | (w2, Returns cur) =>
            match Cursor_execute cur query (effective p) w2 with
            | (w3, Returns cur') =>
                match Cursor_fetchall cur' w3 with
                | (w4, r) => ((fst s1, w4), r)
                end
            | (w3, Raises e) => ((fst s1, w3), Raises e)
            end
        | (w2, Raises e) => ((fst s1, w2), Raises e)
        end
    | (s1, Raises e) => (s1, Raises e)
    end.
Proof.
  unfold execute_query, effective. step_py.
  destruct (connect s) as [s1 [h|e]]; [|reflexivity].
  destruct (Connection_cursor h (snd s1)) as [w2 [cur|e]]; simpl; [|reflexivity].
  destruct (truthy p); step_py;
    destruct (Cursor_execute cur query _ w2) as [w3 [cur'|e]]; simpl;
    reflexivity.
Qed.

Lemma close_held s h :
  connection (fst s) = Some h ->
  close s =
    (({| db_path := db_path (fst s); connection := None |},
      fst (Connection_close h (snd s))), Returns tt).
Proof.
  intros Hc. unfold close. step_py. rewrite Hc. step_py.
  unfold Connection_close. destruct (is_open (snd s) h); reflexivity.
Qed.

Lemma close_absent s :
  connection (fst s) = None -> close s = (s, Returns tt).
Proof.
  intros Hc. unfold close. step_py. rewrite Hc. reflexivity.
Qed.

(** The library calls of [execute_query] leave the connection objects as
    they are. *)
Lemma Connection_cursor_objects h w :
  objects (fst (Connection_cursor h w)) = objects w.
Proof.
  unfold Connection_cursor.
  destruct (objects w !! h) as [o|]; [destruct (conn_closed o)|]; reflexivity.
Qed.

Lemma Cursor_execute_objects cur query p w :
  objects (fst (Cursor_execute cur query p w)) = objects w.
Proof.
  unfold Cursor_execute, check_connection.
  destruct (is_open w (cur_connection cur)); [|reflexivity].
  destruct (engine_run _ _ _ _) as [g [rs|e]]; reflexivity.
Qed.

Lemma Cursor_fetchall_objects cur w :
  objects (fst (Cursor_fetchall cur w)) = objects w.
Proof.
  unfold Cursor_fetchall, check_connection.
  destruct (is_open w (cur_connection cur)); reflexivity.
Qed.

(** After [connect], [execute_query] changes neither the manager nor the
    connection objects. *)
Lemma execute_query_after_connect query p s :
  fst (fst (execute_query query p s)) = fst (fst (connect s)) /\
  objects (snd (fst (execute_query query p s))) = objects (snd (fst (connect s))).
Proof.
  rewrite execute_query_unfold.
  destruct (connect s) as [s1 [h|e]]; [|split; reflexivity].
  pose proof (Connection_cursor_objects h (snd s1)) as H2.
  destruct (Connection_cursor h (snd s1)) as [w2 [cur|e]]; simpl in *;
    [|split; [reflexivity|exact H2]].
  pose proof (Cursor_execute_objects cur query (effective p) w2) as H3.
  destruct (Cursor_execute cur query (effective p) w2) as [w3 [cur'|e]];
    simpl in *; [|split; [reflexivity|congruence]].
  pose proof (Cursor_fetchall_objects cur' w3) as H4.
  destruct (Cursor_fetchall cur' w3) as [w4 r]; simpl in *.
  split; [reflexivity|congruence].
Qed.

(** *** The invariant behind the single live connection *)

Lemma is_open_objects w w' h :
  objects w = objects w' -> is_open w h = is_open w' h.
Proof. unfold is_open. intros ->. reflexivity. Qed.

Lemma is_open_beyond w h :
  length (objects w) <= h -> is_open w h = false.
Proof.
  intros Hle. unfold is_open. rewrite (lookup_ge_None_2 _ _ Hle). reflexivity.
Qed.

(** [tracked] reads the manager and the connection objects only. *)
Lemma tracked_ext n0 s s' :
  fst s' = fst s -> objects (snd s') = objects (snd s) ->
  tracked n0 s -> tracked n0 s'.
Proof.
  intros Hm Ho [Hn Ht]. unfold tracked. rewrite Hm, Ho. split; [exact Hn|].
  destruct (connection (fst s)) as [c|].
  - destruct Ht as (Hc & Hlast & Hobj & Hothers).
    repeat split; try assumption.
    intros h Hh Hne. rewrite (is_open_objects _ (snd s)) by exact Ho. auto.
  - intros h Hh. rewrite (is_open_objects _ (snd s)) by exact Ho. auto.
Qed.

Lemma tracked_init path w :
  tracked (length (objects w)) (__init__ path, w).
Proof.
  split; simpl; [lia|]. intros h Hh. apply is_open_beyond. exact Hh.
Qed.

Lemma tracked_connect n0 s :
  tracked n0 s -> tracked n0 (fst (connect s)).
Proof.
  intros Ht. destruct (connection (fst s)) as [c|] eqn:Hc.
  - rewrite (connect_held s c Hc). exact Ht.
  - rewrite (connect_absent s Hc). simpl.
    destruct (engine_open _ _ _) as [g [[]|e]]; simpl.
    + destruct Ht as [Hn Ht]. rewrite Hc in Ht.
      split; simpl; [rewrite length_app; simpl; lia|].
      split; [exact Hn|]. split; [rewrite length_app; simpl; lia|].
      split; [apply list_lookup_middle; reflexivity|].
      intros h Hh Hne. unfold is_open. simpl.
      destruct (decide (h < length (objects (snd s)))) as [Hlt|Hge].
      * rewrite lookup_app_l by exact Hlt. apply (Ht h Hh).
      * rewrite lookup_ge_None_2; [reflexivity|].
        rewrite length_app; simpl; lia.
    + apply (tracked_ext n0 s); [reflexivity|reflexivity|exact Ht].
Qed.

Lemma tracked_execute_query n0 query p s :
  tracked n0 s -> tracked n0 (fst (execute_query query p s)).
Proof.
  intros Ht. destruct (execute_query_after_connect query p s) as [Hm Ho].
  apply (tracked_ext n0 (fst (connect s))); [exact Hm|exact Ho|].
  apply tracked_connect. exact Ht.
Qed.

Lemma tracked_close n0 s :
  tracked n0 s -> tracked n0 (fst (close s)).
Proof.
  intros Ht. destruct (connection (fst s)) as [c|] eqn:Hc.
  - rewrite (close_held s c Hc). simpl.
    destruct Ht as [Hn Ht]. rewrite Hc in Ht.
    destruct Ht as (Hc0 & Hlast & Hobj & Hothers).
    unfold Connection_close, is_open. rewrite Hobj. simpl.
    split; simpl; [rewrite length_alter; exact Hn|].
    intros h Hh. unfold is_open. simpl.
    destruct (decide (h = c)) as [->|Hne].
    + rewrite list_lookup_alter_eq, Hobj. reflexivity.
    + rewrite list_lookup_alter_ne by congruence. apply (Hothers h Hh Hne).
  - rewrite (close_absent s Hc). exact Ht.
Qed.

Lemma tracked_perform n0 c s :
  tracked n0 s -> tracked n0 (perform c s).
Proof.
  destruct c; simpl.
  - apply tracked_connect.
  - apply tracked_execute_query.
  - apply tracked_close.
Qed.

Lemma tracked_run n0 cs s :
  tracked n0 s -> tracked n0 (run cs s).
Proof.
  revert s. induction cs as [|c cs IH]; intros s Ht; simpl.
  - exact Ht.
  - apply IH, tracked_perform, Ht.
Qed.

Lemma filter_none {A} (f : A -> bool) (l : list A) :
  (forall x, In x l -> f x = false) -> List.filter f l = [].
Proof.
  induction l as [|x l IH]; intros Hf; simpl; [reflexivity|].
  rewrite (Hf x) by (left; reflexivity).
  apply IH. intros y Hy. apply Hf. right. exact Hy.
Qed.

Lemma tracked_one_live n0 s :
  tracked n0 s -> one_live n0 s.
Proof.
  intros [Hn Ht]. unfold one_live, live_handles.
  destruct (connection (fst s)) as [c|].
  - destruct Ht as (Hc & Hlast & Hobj & Hothers).
    split; [|exact Hlast].
    rewrite <- Hlast.
    replace (S c - n0) with (S (c - n0)) by lia.
    rewrite seq_S, List.filter_app. simpl.
    replace (n0 + (c - n0)) with c by lia.
    rewrite filter_none.
    + unfold is_open. rewrite Hobj. reflexivity.
    + intros h Hin. apply in_seq in Hin. apply Hothers; lia.
  - apply filter_none. intros h Hin. apply in_seq in Hin. apply Ht. lia.
Qed.

Lemma tracked_holds_open n0 s :
  tracked n0 s -> holds_open s.
Proof.
  intros [_ Ht]. unfold holds_open.
  destruct (connection (fst s)); [apply Ht|exact I].
Qed.

(** Every state a fresh manager can reach holds an open connection or
    none. *)
Lemma run_holds_open path w cs :
  holds_open (run cs (__init__ path, w)).
Proof.
  apply (tracked_holds_open (length (objects w))), tracked_run, tracked_init.
Qed.

(** *** A query on an open connection *)

(** On a connection that is open and has the [Row] factory, the three
    library calls of [execute_query] come down to one run of the engine. *)
Lemma query_on_open h query p w :
  objects w !! h = Some {| conn_row_factory := RowFactory; conn_closed := false |} ->
  match Connection_cursor h w with
  | (w2, Returns cur) =>
      match Cursor_execute cur query p w2 with
      | (w3, Returns cur') => Cursor_fetchall cur' w3
      | (w3, Raises e) => (w3, Raises e)
      end
  | (w2, Raises e) => (w2, Raises e)
  end =
  match engine_run h query p (eng w) with
  | (g, Returns rs) => (with_eng w g, Returns (map Row rs))
  | (g, Raises e) => (with_eng w g, Raises (Sqlite3Error e))
  end.
Proof.
  intros Hobj. unfold Connection_cursor. rewrite Hobj. simpl.
  unfold Cursor_execute, check_connection, is_open. simpl. rewrite Hobj. simpl.
  destruct (engine_run h query p (eng w)) as [g [rs|e]]; [|reflexivity].
  unfold Cursor_fetchall, check_connection, is_open. simpl. rewrite Hobj.
  reflexivity.
Qed.

(** The connection [connect] returns is open and has the [Row] factory. *)
Lemma connect_opens s s1 h :
  holds_open s -> connect s = (s1, Returns h) ->
  objects (snd s1) !! h =
    Some {| conn_row_factory := RowFactory; conn_closed := false |}.
Proof.
  unfold holds_open. destruct (connection (fst s)) as [c|] eqn:Hc.
  - rewrite (connect_held s c Hc). intros Hobj [= <- <-]. exact Hobj.
  - rewrite (connect_absent s Hc). simpl. intros _.
    destruct (engine_open _ _ _) as [g [[]|e]]; intros [= <- <-]. simpl.
    apply list_lookup_middle. reflexivity.
Qed.

Lemma execute_query_on_open query p s :
  holds_open s ->
  execute_query query p s =
    match connect s with
    | (s1, Returns h) =>
        match engine_run h query (effective p) (eng (snd s1)) with
        | (g, Returns rs) =>
            ((fst s1, with_eng (snd s1) g), Returns (map Row rs))
        | (g, Raises e) =>
            ((fst s1, with_eng (snd s1) g), Raises (Sqlite3Error e))
        end
    | (s1, Raises e) => (s1, Raises e)
    end.
Proof.
  intros Hwf. rewrite execute_query_unfold.
  destruct (connect s) as [s1 [h|e]] eqn:Hconn; [|reflexivity].
  pose proof (query_on_open h query (effective p) (snd s1)
                (connect_opens s s1 h Hwf Hconn)) as Hq.
  destruct (Connection_cursor h (snd s1)) as [w2 [cur|e]];
    [destruct (Cursor_execute cur query (effective p) w2) as [w3 [cur'|e]]|];
    [rewrite Hq| |];
    destruct (engine_run _ _ _ _) as [g [rs|e']];
    try discriminate Hq; try injection Hq as <- <-; reflexivity.
Qed.

(** A call other than [close] keeps the connection the field holds and
    the connection objects. *)
Lemma perform_keeps c s h :
  connection (fst s) = Some h -> is_close c = false ->
  connection (fst (perform c s)) = Some h /\
  objects (snd (perform c s)) = objects (snd s).
Proof.
  intros Hc Hnc. destruct c as [|query p|]; simpl in *; [| |discriminate].
  - rewrite (connect_held s h Hc). split; [exact Hc|reflexivity].
  - destruct (execute_query_after_connect query p s) as [Hm Ho].
    rewrite Hm, Ho, (connect_held s h Hc). split; [exact Hc|reflexivity].
Qed.

Lemma run_keeps cs s h :
  connection (fst s) = Some h -> existsb is_close cs = false ->
  connection (fst (run cs s)) = Some h /\
  objects (snd (run cs s)) = objects (snd s).
Proof.
  revert s. induction cs as [|c cs IH]; intros s Hc Hnc; simpl in *.
  - split; [exact Hc|reflexivity].
  - apply orb_false_iff in Hnc as [Hc0 Hcs].
    destruct (perform_keeps c s h Hc Hc0) as [Hc1 Ho1].
    destruct (IH (perform c s) Hc1 Hcs) as [Hc2 Ho2].
    split; [exact Hc2|congruence].
Qed.

Lemma db_path_connect s :
  db_path (fst (fst (connect s))) = db_path (fst s).
Proof.
  destruct (connection (fst s)) as [c|] eqn:Hc.
  - rewrite (connect_held s c Hc). reflexivity.
  - rewrite (connect_absent s Hc). simpl.
    destruct (engine_open _ _ _) as [g [[]|e]]; reflexivity.
Qed.

Lemma db_path_close s :
  db_path (fst (fst (close s))) = db_path (fst s).
Proof.
  destruct (connection (fst s)) as [c|] eqn:Hc.
  - rewrite (close_held s c Hc). reflexivity.
  - rewrite (close_absent s Hc). reflexivity.
Qed.

Lemma db_path_perform c s :
  db_path (fst (perform c s)) = db_path (fst s).
Proof.
  destruct c as [|query p|]; simpl.
  - apply db_path_connect.
  - destruct (execute_query_after_connect query p s) as [Hm _].
    rewrite Hm. apply db_path_connect.
  - apply db_path_close.
Qed.

Lemma keys_make_row (r : record) :
  keys (make_row RowFactory r) = Some (map fst r).
Proof. reflexivity. Qed.

(** ** The properties of the specification *)

(** C1: in every state a manager reaches from its construction by any
    sequence of [connect], [execute_query] and [close] calls, the
    connections it has opened and not closed are: none when the field is
    [None]; when the field holds a handle, that handle only, and it is the
    connection opened last. *)
Theorem one_live_connection (path : string) w (cs : list call) :
  one_live (length (objects w)) (run cs (__init__ path, w)).
Proof.
  apply tracked_one_live, tracked_run, tracked_init.
Qed.

(** C2: when [connect] has returned a handle, calling it again, at once or
    after any calls other than [close], returns the same handle, leaves the
    state as it is and allocates no connection object. *)
Theorem connect_idempotent s s1 h (cs : list call) :
  connect s = (s1, Returns h) ->
  existsb is_close cs = false ->
  connect s1 = (s1, Returns h) /\
  connect (run cs s1) = (run cs s1, Returns h) /\
  objects (snd (run cs s1)) = objects (snd s1).
Proof.
  intros Hconn Hcs.
  pose proof (connect_returns_field s s1 h Hconn) as Hc.
  destruct (run_keeps cs s1 h Hc Hcs) as [Hc' Ho].
  split; [apply connect_held; exact Hc|].
  split; [apply connect_held; exact Hc'|exact Ho].
Qed.

(** C3: [close] returns with the field [None]; if the engine then opens the
    stored path and accepts the query, the next [execute_query] opens a new
    connection, stores it in the field and returns the rows. *)
Theorem close_then_execute_query s query p g g' rs :
  let s1 := fst (close s) in
  let h := length (objects (snd s1)) in
  engine_open h (db_path (fst s1)) (eng (snd s1)) = (g, Returns tt) ->
  engine_run h query (effective p) g = (g', Returns rs) ->
  snd (close s) = Returns tt /\
  connection (fst s1) = None /\
  execute_query query p s1 =
    (({| db_path := db_path (fst s); connection := Some h |},
      {| objects := objects (snd s1) ++
                    [{| conn_row_factory := RowFactory; conn_closed := false |}];
         eng := g' |}),
     Returns (map Row rs)).
Proof.
  intros s1 h Hopen Hrun.
  assert (snd (close s) = Returns tt /\ connection (fst s1) = None /\
          db_path (fst s1) = db_path (fst s)) as (Hret & Hnone & Hpath).
  { subst s1 h. destruct (connection (fst s)) as [c|] eqn:Hc.
    - rewrite (close_held s c Hc). repeat split.
    - rewrite (close_absent s Hc). repeat split. exact Hc. }
  split; [exact Hret|]. split; [exact Hnone|].
  rewrite execute_query_on_open by (unfold holds_open; rewrite Hnone; exact I).
  rewrite (connect_absent s1 Hnone). simpl. fold h. rewrite Hopen. simpl.
  rewrite Hrun, Hpath. reflexivity.
Qed.

(** C4, amended: when the engine rejects the query, [execute_query] raises
    the engine's error as it is, after a single run of the engine; a
    connection held before the call is still held after it, and a manager
    that held none holds afterwards the connection [connect] has opened for
    the call. *)
Theorem execute_query_rejected query p s s1 h g e :
  holds_open s ->
  connect s = (s1, Returns h) ->
  engine_run h query (effective p) (eng (snd s1)) = (g, Raises e) ->
  execute_query query p s =
    ((fst s1, with_eng (snd s1) g), Raises (Sqlite3Error e)) /\
  connection (fst s1) = Some h /\
  match connection (fst s) with
  | Some c => h = c /\ s1 = s
  | None => h = length (objects (snd s))
  end.
Proof.
  intros Hwf Hconn Hrun.
  split; [rewrite (execute_query_on_open query p s Hwf), Hconn, Hrun; reflexivity|].
  split; [exact (connect_returns_field s s1 h Hconn)|].
  destruct (connection (fst s)) as [c|] eqn:Hc.
  - rewrite (connect_held s c Hc) in Hconn. injection Hconn as <- <-.
    split; reflexivity.
  - rewrite (connect_absent s Hc) in Hconn. simpl in Hconn.
    destruct (engine_open _ _ _) as [g0 [[]|e0]]; [|discriminate Hconn].
    injection Hconn as <- <-. reflexivity.
Qed.

(** C5: [close] always returns, and leaves the field [None]; a second
    [close] returns too and changes nothing; on a manager that holds no
    connection [close] changes nothing. *)
Theorem close_never_fails s :
  snd (close s) = Returns tt /\
  connection (fst (fst (close s))) = None /\
  close (fst (close s)) = (fst (close s), Returns tt) /\
  forall (path : string) w,
    close ({| db_path := path; connection := None |}, w) =
      (({| db_path := path; connection := None |}, w), Returns tt).
Proof.
  assert (snd (close s) = Returns tt /\
          connection (fst (fst (close s))) = None) as [Hret Hnone].
  { destruct (connection (fst s)) as [c|] eqn:Hc.
    - rewrite (close_held s c Hc). split; reflexivity.
    - rewrite (close_absent s Hc). split; [reflexivity|exact Hc]. }
  split; [exact Hret|]. split; [exact Hnone|].
  split; [apply close_absent; exact Hnone|].
  intros path w. apply close_absent. reflexivity.
Qed.

(** C6: on a manager whose connection, if any, is open, [execute_query]
    first calls [connect]; if that raises, so does the query; otherwise the
    engine runs the query on the returned connection with the parameters,
    and every row the engine yields is returned, in order, as a [Row]
    mapping whose keys are the column names.  Spelled out on the engine:
    with a connection held, the query runs on it and nothing is opened;
    with none held, the path is opened first, the new connection object is
    stored in the field with the [Row] factory, and the query runs on it,
    unless the open fails, in which case the query does not run.  After a
    return the field holds a connection that is open and has the [Row]
    factory. *)
Theorem execute_query_rows query p s :
  holds_open s ->
  execute_query query p s =
    match connect s with
    | (s1, Returns h) =>
        match engine_run h query (effective p) (eng (snd s1)) with
        | (g, Returns rs) =>
            ((fst s1, with_eng (snd s1) g),
             Returns (map (make_row RowFactory) rs))
        | (g, Raises e) =>
            ((fst s1, with_eng (snd s1) g), Raises (Sqlite3Error e))
        end
    | (s1, Raises e) => (s1, Raises e)
    end /\
  (forall s' rows, execute_query query p s = (s', Returns rows) ->
    is_Some (connection (fst s')) /\
    Forall (fun r => is_Some (keys r)) rows) /\
  execute_query query p s =
    match connection (fst s) with
    | Some h =>
        match engine_run h query (effective p) (eng (snd s)) with
        | (g, Returns rs) =>
            ((fst s, with_eng (snd s) g),
             Returns (map (make_row RowFactory) rs))
        | (g, Raises e) =>
            ((fst s, with_eng (snd s) g), Raises (Sqlite3Error e))
        end
    | None =>
        let h := length (objects (snd s)) in
        match engine_open h (db_path (fst s)) (eng (snd s)) with
        | (g0, Returns _) =>
            let self1 := {| db_path := db_path (fst s); connection := Some h |} in
            let objs := objects (snd s) ++
                        [{| conn_row_factory := RowFactory; conn_closed := false |}] in
            match engine_run h query (effective p) g0 with
            | (g, Returns rs) =>
                ((self1, {| objects := objs; eng := g |}),
                 Returns (map (make_row RowFactory) rs))
            | (g, Raises e) =>
                ((self1, {| objects := objs; eng := g |}),
                 Raises (Sqlite3Error e))
            end
        | (g0, Raises e) =>
            ((fst s, with_eng (snd s) g0), Raises (Sqlite3Error e))
        end
    end /\
  (forall s' rows, execute_query query p s = (s', Returns rows) ->
    exists h, connection (fst s') = Some h /\
      objects (snd s') !! h =
        Some {| conn_row_factory := RowFactory; conn_closed := false |}).
Proof.
  intros Hwf. pose proof (execute_query_on_open query p s Hwf) as Hq.
  split; [exact Hq|].
  split.
  { intros s' rows. rewrite Hq.
    destruct (connect s) as [s1 [h|e]] eqn:Hconn; [|discriminate].
    destruct (engine_run _ _ _ _) as [g [rs|e]]; [|discriminate].
    intros [= <- <-]. simpl.
    split; [rewrite (connect_returns_field s s1 h Hconn); eexists; reflexivity|].
    apply Forall_forall. intros r Hr.
    apply list_elem_of_fmap in Hr as (cols & -> & _).
    simpl. eexists; reflexivity. }
  split.
  { destruct (connection (fst s)) as [h|] eqn:Hc.
    - rewrite Hq, (connect_held s h Hc). reflexivity.
    - rewrite Hq, (connect_absent s Hc). simpl.
      destruct (engine_open _ _ _) as [g0 [[]|e]]; simpl; [|reflexivity].
      destruct (engine_run _ _ _ _) as [g [rs|e]]; reflexivity. }
  intros s' rows. rewrite Hq.
  destruct (connect s) as [s1 [h|e]] eqn:Hconn; [|discriminate].
  pose proof (connect_opens s s1 h Hwf Hconn) as Hobj.
  destruct (engine_run _ _ _ _) as [g [rs|e]]; [|discriminate].
  intros [= <- <-]. simpl. exists h.
  split; [exact (connect_returns_field s s1 h Hconn)|exact Hobj].
Qed.

(** C7: with a falsy parameter mapping ([None] or the empty dict),
    [execute_query] does exactly what it does with no parameters: same
    outcome, same final state. *)
Theorem execute_query_falsy_params query p s :
  truthy p = false ->
  execute_query query p s = execute_query query None s.
Proof.
  intros Hp. unfold execute_query. rewrite Hp. reflexivity.
Qed.

(** C8: [connect], [execute_query] and [close], and every sequence of
    them, leave [db_path] as it is. *)
Theorem db_path_immutable s :
  db_path (fst (fst (connect s))) = db_path (fst s) /\
  (forall query p, db_path (fst (fst (execute_query query p s))) = db_path (fst s)) /\
  db_path (fst (fst (close s))) = db_path (fst s) /\
  forall cs : list call, db_path (fst (run cs s)) = db_path (fst s).
Proof.
  split; [apply (db_path_perform Connect)|].
  split; [intros query p; apply (db_path_perform (ExecuteQuery query p))|].
  split; [apply (db_path_perform Close)|].
  intros cs. revert s. induction cs as [|c cs IH]; intros s; simpl.
  - reflexivity.
  - rewrite IH. apply db_path_perform.
Qed.

(** C9: on a manager that holds no connection, when the engine fails to
    open the path, [connect] raises the engine's error and the manager is
    as before, its field still [None]. *)
Theorem connect_failure_atomic s g e :
  connection (fst s) = None ->
  engine_open (length (objects (snd s))) (db_path (fst s)) (eng (snd s)) =
    (g, Raises e) ->
  connect s = ((fst s, with_eng (snd s) g), Raises (Sqlite3Error e)) /\
  connection (fst (fst (connect s))) = None /\
  objects (snd (fst (connect s))) = objects (snd s).
Proof.
  intros Hc Hopen. rewrite (connect_absent s Hc). simpl. rewrite Hopen. simpl.
  split; [reflexivity|]. split; [exact Hc|reflexivity].
Qed.

(** C10: a connection held before [execute_query] is held after it,
    whatever the outcome, and no connection object has changed; [connect]
    keeps it too; [close] is the method that clears the field. *)
Theorem execute_query_keeps_connection query p s h :
  connection (fst s) = Some h ->
  connection (fst (fst (execute_query query p s))) = Some h /\
  objects (snd (fst (execute_query query p s))) = objects (snd s) /\
  connection (fst (fst (connect s))) = Some h /\
  connection (fst (fst (close s))) = None.
Proof.
  intros Hc.
  destruct (perform_keeps (ExecuteQuery query p) s h Hc eq_refl) as [H1 H2].
  destruct (perform_keeps Connect s h Hc eq_refl) as [H3 _].
  split; [exact H1|]. split; [exact H2|]. split; [exact H3|].
  rewrite (close_held s h Hc). reflexivity.
Qed.

(** ** Further properties of the methods *)

(** On an open connection, whatever its row factory, the three library
    calls of [execute_query] come down to one run of the engine, and the
    rows are built by that factory. *)
Lemma query_on_factory h query p w f :
  objects w !! h = Some {| conn_row_factory := f; conn_closed := false |} ->
  match Connection_cursor h w with
  | (w2, Returns cur) =>
      match Cursor_execute cur query p w2 with
      | (w3, Returns cur') => Cursor_fetchall cur' w3
      | (w3, Raises e) => (w3, Raises e)
      end
  | (w2, Raises e) => (w2, Raises e)
  end =
  match engine_run h query p (eng w) with
  | (g, Returns rs) => (with_eng w g, Returns (map (make_row f) rs))
  | (g, Raises e) => (with_eng w g, Raises (Sqlite3Error e))
  end.
Proof.
  intros Hobj. unfold Connection_cursor. rewrite Hobj. simpl.
  unfold Cursor_execute, check_connection, is_open. simpl. rewrite Hobj. simpl.
  destruct (engine_run h query p (eng w)) as [g [rs|e]]; [|reflexivity].
  unfold Cursor_fetchall, check_connection, is_open. simpl. rewrite Hobj.
  reflexivity.
Qed.

Lemma execute_query_held_factory query p s h f :
  connection (fst s) = Some h ->
  objects (snd s) !! h = Some {| conn_row_factory := f; conn_closed := false |} ->
  execute_query query p s =
    match engine_run h query (effective p) (eng (snd s)) with
    | (g, Returns rs) =>
        ((fst s, with_eng (snd s) g), Returns (map (make_row f) rs))
    | (g, Raises e) =>
        ((fst s, with_eng (snd s) g), Raises (Sqlite3Error e))
    end.
Proof.
  intros Hc Hobj. rewrite execute_query_unfold, (connect_held s h Hc).
  pose proof (query_on_factory h query (effective p) (snd s) f Hobj) as Hq.
  destruct (Connection_cursor h (snd s)) as [w2 [cur|e]];
    [destruct (Cursor_execute cur query (effective p) w2) as [w3 [cur'|e]]|];
    [rewrite Hq| |];
    destruct (engine_run _ _ _ _) as [g [rs|e']];
    try discriminate Hq; try injection Hq as <- <-; reflexivity.
Qed.

(** X1: when the connection in the field has been closed behind the
    manager's back (the caller closed the handle [connect] returned),
    [connect] still hands out that handle and [execute_query] raises the
    closed-database error: it does not reconnect, does not run the query and
    leaves the whole state as it was. *)
Theorem execute_query_stale_connection query p s h :
  connection (fst s) = Some h ->
  is_open (snd s) h = false ->
  connect s = (s, Returns h) /\
  execute_query query p s = (s, Raises ClosedDatabase).
Proof.
  intros Hc Hclosed. split; [exact (connect_held s h Hc)|].
  rewrite execute_query_unfold, (connect_held s h Hc).
  unfold Connection_cursor. unfold is_open in Hclosed.
  destruct s as [self w]. simpl in *.
  destruct (objects w !! h) as [o|]; [|reflexivity].
  destruct (conn_closed o); [reflexivity|discriminate Hclosed].
Qed.

(** X2: [connect] sets the row factory only on a connection it opens.  On
    a held connection whose factory the caller has changed, [execute_query]
    builds the rows with the factory the connection has: plain tuples under
    the default factory. *)
Theorem execute_query_uses_held_factory query p s h f g rs :
  connection (fst s) = Some h ->
  objects (snd s) !! h = Some {| conn_row_factory := f; conn_closed := false |} ->
  engine_run h query (effective p) (eng (snd s)) = (g, Returns rs) ->
  execute_query query p s =
    ((fst s, with_eng (snd s) g), Returns (map (make_row f) rs)) /\
  objects (snd (fst (execute_query query p s))) !! h =
    Some {| conn_row_factory := f; conn_closed := false |} /\
  map keys (map (make_row f) rs) =
    map (fun cols => match f with
                     | TupleFactory => None
                     | RowFactory => Some (map fst cols)
                     end) rs.
Proof.
  intros Hc Hobj Hrun.
  rewrite (execute_query_held_factory query p s h f Hc Hobj), Hrun. simpl.
  split; [reflexivity|]. split; [exact Hobj|].
  rewrite List.map_map. apply List.map_ext. intros cols.
  destruct f; reflexivity.
Qed.

(** X3: [close] on a manager holding an open connection closes that
    connection and ends its engine session, once; it allocates nothing and
    leaves every other connection object as it was. *)
Theorem close_closes_held_only s h :
  connection (fst s) = Some h ->
  is_open (snd s) h = true ->
  is_open (snd (fst (close s))) h = false /\
  eng (snd (fst (close s))) = engine_close h (eng (snd s)) /\
  length (objects (snd (fst (close s)))) = length (objects (snd s)) /\
  forall h', h' <> h ->
    objects (snd (fst (close s))) !! h' = objects (snd s) !! h'.
Proof.
  intros Hc Hopen. rewrite (close_held s h Hc). simpl.
  unfold Connection_close. rewrite Hopen. simpl.
  unfold is_open in *. simpl.
  rewrite list_lookup_alter_eq.
  destruct (objects (snd s) !! h) as [o|]; [|discriminate Hopen]. simpl.
  split; [reflexivity|]. split; [reflexivity|].
  split; [apply length_alter|].
  intros h' Hne. apply list_lookup_alter_ne. congruence.
Qed.

(** X8: on a manager holding no connection, when the engine cannot open
    the path, [execute_query] raises that error; the query never reaches
    the engine, no connection object is allocated and the field stays
    [None]. *)
Theorem execute_query_cannot_open query p s g e :
  connection (fst s) = None ->
  engine_open (length (objects (snd s))) (db_path (fst s)) (eng (snd s)) =
    (g, Raises e) ->
  execute_query query p s =
    ((fst s, with_eng (snd s) g), Raises (Sqlite3Error e)).
Proof.
  intros Hc Hopen.
  rewrite execute_query_unfold, (connect_absent s Hc). simpl.
  rewrite Hopen. reflexivity.
Qed.

(** X9: on a manager holding no connection, when the engine opens the
    path, [connect] returns a connection object that did not exist before,
    stores it in the field, and that object is open with the [Row] factory;
    the objects that existed before are untouched. *)
Theorem connect_opens_new_connection s g :
  connection (fst s) = None ->
  engine_open (length (objects (snd s))) (db_path (fst s)) (eng (snd s)) =
    (g, Returns tt) ->
  let h := length (objects (snd s)) in
  snd (connect s) = Returns h /\
  connection (fst (fst (connect s))) = Some h /\
  objects (snd s) !! h = None /\
  objects (snd (fst (connect s))) !! h =
    Some {| conn_row_factory := RowFactory; conn_closed := false |} /\
  length (objects (snd (fst (connect s)))) = S h /\
  (forall h', h' < h ->
     objects (snd (fst (connect s))) !! h' = objects (snd s) !! h') /\
  eng (snd (fst (connect s))) = g.
Proof.
  intros Hc Hopen h. subst h. rewrite (connect_absent s Hc). simpl.
  rewrite Hopen. simpl.
  split; [reflexivity|]. split; [reflexivity|].
  split; [apply lookup_ge_None_2; lia|].
  split; [apply list_lookup_middle; reflexivity|].
  split; [rewrite length_app; simpl; lia|].
  split; [|reflexivity].
  intros h' Hlt. apply lookup_app_l. exact Hlt.
Qed.

Lemma close_clears s :
  connection (fst (fst (close s))) = None.
Proof.
  destruct (connection (fst s)) as [c|] eqn:Hc.
  - rewrite (close_held s c Hc). reflexivity.
  - rewrite (close_absent s Hc). exact Hc.
Qed.

(** One call allocates a connection object only to fill an empty field,
    and empties the field only by [close]. *)
Lemma perform_allocates c s :
  length (objects (snd (perform c s))) + held s <=
  length (objects (snd s)) + (if is_close c then 1 else 0) + held (perform c s).
Proof.
  assert (length (objects (snd (fst (connect s)))) + held s <=
          length (objects (snd s)) + held (fst (connect s))) as Hconn.
  { unfold held. destruct (connection (fst s)) as [h|] eqn:Hc.
    - rewrite (connect_held s h Hc). simpl. rewrite Hc. lia.
    - rewrite (connect_absent s Hc). simpl.
      destruct (engine_open _ _ _) as [g [[]|e]]; simpl.
      + rewrite length_app. simpl. lia.
      + rewrite Hc. lia. }
  destruct c as [|query p|]; simpl.
  - lia.
  - destruct (execute_query_after_connect query p s) as [Hm Ho].
    unfold held in *. rewrite Hm, Ho. lia.
  - unfold held. rewrite close_clears.
    destruct (connection (fst s)) as [h|] eqn:Hc.
    + rewrite (close_held s h Hc). simpl.
      unfold Connection_close. destruct (is_open (snd s) h); simpl;
        [rewrite length_alter|]; lia.
    + rewrite (close_absent s Hc). simpl. lia.
Qed.

Lemma run_allocates cs s :
  length (objects (snd (run cs s))) + held s <=
  length (objects (snd s)) + closes cs + held (run cs s).
Proof.
  revert s. induction cs as [|c cs IH]; intros s; simpl.
  - unfold closes. simpl. lia.
  - pose proof (perform_allocates c s) as H1.
    pose proof (IH (perform c s)) as H2.
    unfold closes in *. simpl. destruct (is_close c); simpl; lia.
Qed.

(** The only exception [connect] raises is the engine's. *)
Lemma connect_raises s s1 x :
  connect s = (s1, Raises x) -> exists e, x = Sqlite3Error e.
Proof.
  destruct (connection (fst s)) as [c|] eqn:Hc.
  - rewrite (connect_held s c Hc). discriminate.
  - rewrite (connect_absent s Hc). simpl.
    destruct (engine_open _ _ _) as [g [[]|e]]; [discriminate|].
    intros [= <- <-]. exists e. reflexivity.
Qed.

(** X4: a manager opens a connection only when it holds none: over any
    sequence of calls from its construction, the connection objects
    allocated are at most the [close] calls of the sequence, plus one when
    the manager ends up holding a connection. *)
Theorem connections_opened_bound (path : string) w (cs : list call) :
  length (objects (snd (run cs (__init__ path, w)))) <=
  length (objects w) + closes cs + held (run cs (__init__ path, w)) /\
  held (run cs (__init__ path, w)) <= 1.
Proof.
  split.
  - pose proof (run_allocates cs (__init__ path, w)) as H. simpl in H.
    unfold held at 1 in H. simpl in H. lia.
  - unfold held. destruct (connection _); lia.
Qed.

(** X5: after [close], whatever calls came before it, the field is [None]
    and no connection the manager has opened is still open. *)
Theorem close_releases_every_connection (path : string) w (cs : list call) :
  connection (fst (fst (close (run cs (__init__ path, w))))) = None /\
  live_handles (length (objects w))
    (snd (fst (close (run cs (__init__ path, w))))) = [].
Proof.
  split; [apply close_clears|].
  pose proof (tracked_one_live _ _
    (tracked_close _ _ (tracked_run _ cs _ (tracked_init path w)))) as Hone.
  unfold one_live in Hone. rewrite close_clears in Hone. exact Hone.
Qed.

(** X6: a query that raises does not spoil the connection: the next
    [execute_query] runs on the same connection, on the engine state the
    first query left, whether the first returned or raised. *)
Theorem execute_query_twice query1 p1 query2 p2 s h :
  connection (fst s) = Some h ->
  objects (snd s) !! h =
    Some {| conn_row_factory := RowFactory; conn_closed := false |} ->
  let g1 := fst (engine_run h query1 (effective p1) (eng (snd s))) in
  fst (execute_query query1 p1 s) = (fst s, with_eng (snd s) g1) /\
  execute_query query2 p2 (fst (execute_query query1 p1 s)) =
    match engine_run h query2 (effective p2) g1 with
    | (g2, Returns rs) =>
        ((fst s, with_eng (snd s) g2), Returns (map (make_row RowFactory) rs))
    | (g2, Raises e) =>
        ((fst s, with_eng (snd s) g2), Raises (Sqlite3Error e))
    end.
Proof.
  intros Hc Hobj g1.
  assert (fst (execute_query query1 p1 s) = (fst s, with_eng (snd s) g1)) as H1.
  { rewrite (execute_query_held_factory query1 p1 s h RowFactory Hc Hobj).
    subst g1. destruct (engine_run _ _ _ _) as [g [rs|e]]; reflexivity. }
  split; [exact H1|]. rewrite H1.
  rewrite (execute_query_held_factory query2 p2
             (fst s, with_eng (snd s) g1) h RowFactory Hc Hobj).
  reflexivity.
Qed.

(** X7: after [close], [connect] never hands out the old connection
    again: the connection it returns is a new object, open, while the old
    handle stays closed. *)
Theorem reconnect_new_handle s h s2 h' :
  holds_open s ->
  connection (fst s) = Some h ->
  connect (fst (close s)) = (s2, Returns h') ->
  h < h' /\
  connection (fst s2) = Some h' /\
  is_open (snd s2) h = false /\
  is_open (snd s2) h' = true.
Proof.
  intros Hwf Hc. unfold holds_open in Hwf. rewrite Hc in Hwf.
  rewrite (close_held s h Hc).
  rewrite connect_absent by reflexivity. simpl.
  unfold Connection_close, is_open. rewrite Hwf. simpl.
  destruct (engine_open _ _ _) as [g [[]|e]]; [|discriminate].
  intros [= <- <-]. simpl.
  pose proof (lookup_lt_Some _ _ _ Hwf) as Hlt.
  rewrite length_alter.
  split; [exact Hlt|]. split; [reflexivity|].
  split.
  - rewrite lookup_app_l by (rewrite length_alter; exact Hlt).
    rewrite list_lookup_alter_eq, Hwf. reflexivity.
  - rewrite <- (length_alter (fun o => {| conn_row_factory := conn_row_factory o;
                                           conn_closed := true |}) (objects (snd s)) h).
    rewrite list_lookup_middle by reflexivity. reflexivity.
Qed.

(** X10: through the methods alone a closed connection is never used: in
    every state a manager reaches from its construction, [execute_query]
    either returns rows, all of them [Row] mappings, or raises an error of
    the engine; the closed-database error does not occur. *)
Theorem execute_query_outcomes (path : string) w (cs : list call) query p :
  match snd (execute_query query p (run cs (__init__ path, w))) with
  | Returns rows => Forall (fun r => is_Some (keys r)) rows
  | Raises (Sqlite3Error _) => True
  | Raises ClosedDatabase => False
  end.
Proof.
  rewrite (execute_query_on_open query p _ (run_holds_open path w cs)).
  destruct (connect _) as [s1 [h|x]] eqn:Hconn.
  - destruct (engine_run _ _ _ _) as [g [rs|e]]; simpl; [|exact I].
    apply Forall_forall. intros r Hr.
    apply list_elem_of_fmap in Hr as (cols & -> & _). eexists; reflexivity.
  - simpl. destruct (connect_raises _ _ _ Hconn) as [e ->]. exact I.
Qed.

End Properties.

(** ** The properties on the small engine *)

Example toy_close :
  @close toy toy_connected = (toy_closed, Returns tt).
Proof. reflexivity. Qed.

Example toy_close_twice :
  @run toy [Close; Close] toy_connected = toy_closed.
Proof. reflexivity. Qed.

Lemma connect_idempotent_witness :
  @connect toy toy_fresh = (toy_connected, Returns 0) /\
  existsb (@is_close toy) [ExecuteQuery "SELEKT * FROM t" None; Connect] = false /\
  (@connect toy toy_connected = (toy_connected, Returns 0) /\
   @connect toy (run [ExecuteQuery "SELEKT * FROM t" None; Connect] toy_connected) =
     (run [ExecuteQuery "SELEKT * FROM t" None; Connect] toy_connected, Returns 0) /\
   objects (snd (run [ExecuteQuery "SELEKT * FROM t" None; Connect] toy_connected)) =
     objects (snd toy_connected)).
Proof.
  split; [reflexivity|]. split; [reflexivity|].
  apply (@connect_idempotent toy toy_fresh toy_connected 0
           [ExecuteQuery "SELEKT * FROM t" None; Connect]); reflexivity.
Defined.

Lemma close_then_execute_query_witness :
  @engine_open toy 1 "app.db" 0 = (0, Returns tt) /\
  @engine_run toy 1 "SELECT 1" (@effective toy None) 0 =
    (1, Returns [[("1", VInt 1)]]) /\
  (snd (@close toy toy_connected) = Returns tt /\
   connection (fst (fst (@close toy toy_connected))) = None /\
   @execute_query toy "SELECT 1" None (fst (@close toy toy_connected)) =
     (({| db_path := "app.db"; connection := Some 1 |},
       @Build_world toy
         [{| conn_row_factory := RowFactory; conn_closed := true |}; toy_open_row] 1),
      Returns [@Row toy [("1", VInt 1)]])).
Proof.
  split; [reflexivity|]. split; [reflexivity|].
  apply (@close_then_execute_query toy toy_connected "SELECT 1" None 0 1
           [[("1", VInt 1)]]); reflexivity.
Defined.

(** The claim C4 as written fails on a manager that has not connected yet:
    the malformed query is rejected, and the field, [None] before the call,
    holds the new connection after it. *)
Lemma rejected_query_changes_field :
  connection (fst toy_fresh) = None /\
  @execute_query toy "SELEKT * FROM t" None toy_fresh =
    (({| db_path := "app.db"; connection := Some 0 |},
      @Build_world toy [toy_open_row] 1),
     Raises (@Sqlite3Error toy SyntaxError)) /\
  connection (fst (fst (@execute_query toy "SELEKT * FROM t" None toy_fresh))) <>
    connection (fst toy_fresh).
Proof.
  split; [reflexivity|]. split; [reflexivity|]. discriminate.
Qed.

Lemma execute_query_rejected_witness :
  @holds_open toy toy_fresh /\
  @connect toy toy_fresh = (toy_connected, Returns 0) /\
  @engine_run toy 0 "SELEKT * FROM t" (@effective toy None) 0 =
    (1, Raises SyntaxError) /\
  (@execute_query toy "SELEKT * FROM t" None toy_fresh =
     ((fst toy_connected, with_eng (snd toy_connected) (1 : @engine toy)),
      Raises (@Sqlite3Error toy SyntaxError)) /\
   connection (fst toy_connected) = Some 0 /\
   0 = length (objects (snd toy_fresh))).
Proof.
  split; [exact I|]. split; [reflexivity|]. split; [reflexivity|].
  apply (@execute_query_rejected toy "SELEKT * FROM t" None toy_fresh
           toy_connected 0 1 SyntaxError); [exact I|reflexivity|reflexivity].
Defined.

Lemma execute_query_rows_witness :
  @holds_open toy toy_fresh /\
  @execute_query toy "SELECT * FROM t WHERE id = :id"
     (Some {["id" := VInt 2]}) toy_fresh =
    (({| db_path := "app.db"; connection := Some 0 |},
      @Build_world toy [toy_open_row] 1),
     Returns [@Row toy [("id", VInt 2); ("name", VText "b")]]) /\
  @holds_open toy toy_connected /\
  @execute_query toy "SELECT * FROM t WHERE id = :id"
     (Some {["id" := VInt 2]}) toy_connected =
    ((fst toy_connected, with_eng (snd toy_connected) (1 : @engine toy)),
     Returns [@Row toy [("id", VInt 2); ("name", VText "b")]]).
Proof.
  split; [exact I|].
  split;
    [exact (proj1 (proj2 (proj2
       (@execute_query_rows toy "SELECT * FROM t WHERE id = :id"
          (Some {["id" := VInt 2]}) toy_fresh I))))|].
  split; [reflexivity|].
  exact (proj1 (@execute_query_rows toy "SELECT * FROM t WHERE id = :id"
                  (Some {["id" := VInt 2]}) toy_connected eq_refl)).
Defined.

Lemma execute_query_falsy_params_witness :
  @truthy toy (Some ∅) = false /\
  @execute_query toy "SELECT 1" (Some ∅) toy_fresh =
    @execute_query toy "SELECT 1" None toy_fresh.
Proof.
  split; [reflexivity|].
  apply (@execute_query_falsy_params toy "SELECT 1" (Some ∅) toy_fresh).
  reflexivity.
Defined.

Lemma connect_failure_atomic_witness :
  connection (fst (__init__ "", toy_world)) = None /\
  @engine_open toy 0 "" 0 = (0, Raises UnableToOpen) /\
  (@connect toy (__init__ "", toy_world) =
     ((__init__ "", with_eng toy_world (0 : @engine toy)),
      Raises (@Sqlite3Error toy UnableToOpen)) /\
   connection (fst (fst (@connect toy (__init__ "", toy_world)))) = None /\
   objects (snd (fst (@connect toy (__init__ "", toy_world)))) = objects toy_world).
Proof.
  split; [reflexivity|]. split; [reflexivity|].
  apply (@connect_failure_atomic toy (__init__ "", toy_world) 0 UnableToOpen);
    reflexivity.
Defined.

Lemma execute_query_keeps_connection_witness :
  connection (fst toy_connected) = Some 0 /\
  (connection (fst (fst (@execute_query toy "SELEKT * FROM t" None toy_connected))) =
     Some 0 /\
   objects (snd (fst (@execute_query toy "SELEKT * FROM t" None toy_connected))) =
     objects (snd toy_connected) /\
   connection (fst (fst (@connect toy toy_connected))) = Some 0 /\
   connection (fst (fst (@close toy toy_connected))) = None).
Proof.
  split; [reflexivity|].
  apply (@execute_query_keeps_connection toy "SELEKT * FROM t" None toy_connected 0).
  reflexivity.
Defined.

(** ** The further properties on the small engine *)

Lemma execute_query_stale_connection_witness :
  connection (fst toy_stale) = Some 0 /\
  is_open (snd toy_stale) 0 = false /\
  (@connect toy toy_stale = (toy_stale, Returns 0) /\
   @execute_query toy "SELECT 1" None toy_stale =
     (toy_stale, Raises (@ClosedDatabase toy))).
Proof.
  split; [reflexivity|]. split; [reflexivity|].
  apply (@execute_query_stale_connection toy "SELECT 1" None toy_stale 0);
    reflexivity.
Defined.

Lemma execute_query_uses_held_factory_witness :
  connection (fst toy_tuples) = Some 0 /\
  objects (snd toy_tuples) !! 0 =
    Some {| conn_row_factory := TupleFactory; conn_closed := false |} /\
  @engine_run toy 0 "SELECT * FROM t WHERE id = :id"
    (@effective toy (Some {["id" := VInt 1]})) 0 =
    (1, Returns [[("id", VInt 1); ("name", VText "a")]]) /\
  @execute_query toy "SELECT * FROM t WHERE id = :id"
    (Some {["id" := VInt 1]}) toy_tuples =
    ((fst toy_tuples, with_eng (snd toy_tuples) (1 : @engine toy)),
     Returns [@Tuple toy [VInt 1; VText "a"]]).
Proof.
  split; [reflexivity|]. split; [reflexivity|]. split; [reflexivity|].
  exact (proj1 (@execute_query_uses_held_factory toy
                  "SELECT * FROM t WHERE id = :id" (Some {["id" := VInt 1]})
                  toy_tuples 0 TupleFactory 1
                  [[("id", VInt 1); ("name", VText "a")]]
                  eq_refl eq_refl eq_refl)).
Defined.

Lemma close_closes_held_only_witness :
  connection (fst toy_connected) = Some 0 /\
  is_open (snd toy_connected) 0 = true /\
  (is_open (snd (fst (@close toy toy_connected))) 0 = false /\
   eng (snd (fst (@close toy toy_connected))) =
     @engine_close toy 0 (eng (snd toy_connected)) /\
   length (objects (snd (fst (@close toy toy_connected)))) =
     length (objects (snd toy_connected)) /\
   forall h', h' <> 0 ->
     objects (snd (fst (@close toy toy_connected))) !! h' =
     objects (snd toy_connected) !! h').
Proof.
  split; [reflexivity|]. split; [reflexivity|].
  apply (@close_closes_held_only toy toy_connected 0); reflexivity.
Defined.

Lemma execute_query_twice_witness :
  connection (fst toy_connected) = Some 0 /\
  objects (snd toy_connected) !! 0 =
    Some {| conn_row_factory := RowFactory; conn_closed := false |} /\
  (fst (@execute_query toy "SELEKT * FROM t" None toy_connected) =
     (fst toy_connected, with_eng (snd toy_connected) (1 : @engine toy)) /\
   @execute_query toy "SELECT 1" None
     (fst (@execute_query toy "SELEKT * FROM t" None toy_connected)) =
     ((fst toy_connected, with_eng (snd toy_connected) (2 : @engine toy)),
      Returns [@Row toy [("1", VInt 1)]])).
Proof.
  split; [reflexivity|]. split; [reflexivity|].
  apply (@execute_query_twice toy "SELEKT * FROM t" None "SELECT 1" None
           toy_connected 0); reflexivity.
Defined.

Lemma reconnect_new_handle_witness :
  @holds_open toy toy_connected /\
  connection (fst toy_connected) = Some 0 /\
  @connect toy (fst (@close toy toy_connected)) =
    (({| db_path := "app.db"; connection := Some 1 |},
      @Build_world toy
        [{| conn_row_factory := RowFactory; conn_closed := true |}; toy_open_row] 0),
     Returns 1) /\
  (0 < 1 /\
   connection (fst ({| db_path := "app.db"; connection := Some 1 |},
      @Build_world toy
        [{| conn_row_factory := RowFactory; conn_closed := true |}; toy_open_row] 0))
     = Some 1 /\
   is_open (@Build_world toy
        [{| conn_row_factory := RowFactory; conn_closed := true |}; toy_open_row] 0)
     0 = false /\
   is_open (@Build_world toy
        [{| conn_row_factory := RowFactory; conn_closed := true |}; toy_open_row] 0)
     1 = true).
Proof.
  split; [reflexivity|]. split; [reflexivity|]. split; [reflexivity|].
  apply (@reconnect_new_handle toy toy_connected 0
           ({| db_path := "app.db"; connection := Some 1 |},
            @Build_world toy
              [{| conn_row_factory := RowFactory; conn_closed := true |};
               toy_open_row] 0) 1); reflexivity.
Defined.

Lemma execute_query_cannot_open_witness :
  connection (fst (__init__ "", toy_world)) = None /\
  @engine_open toy 0 "" 0 = (0, Raises UnableToOpen) /\
  @execute_query toy "SELECT 1" None (__init__ "", toy_world) =
    ((__init__ "", with_eng toy_world (0 : @engine toy)),
     Raises (@Sqlite3Error toy UnableToOpen)).
Proof.
  split; [reflexivity|]. split; [reflexivity|].
  apply (@execute_query_cannot_open toy "SELECT 1" None (__init__ "", toy_world)
           0 UnableToOpen); reflexivity.
Defined.

Lemma connect_opens_new_connection_witness :
  connection (fst toy_closed) = None /\
  @engine_open toy 1 "app.db" 0 = (0, Returns tt) /\
  (snd (@connect toy toy_closed) = Returns 1 /\
   connection (fst (fst (@connect toy toy_closed))) = Some 1 /\
   objects (snd toy_closed) !! 1 = None /\
   objects (snd (fst (@connect toy toy_closed))) !! 1 =
     Some {| conn_row_factory := RowFactory; conn_closed := false |} /\
   length (objects (snd (fst (@connect toy toy_closed)))) = 2 /\
   (forall h', h' < 1 ->
      objects (snd (fst (@connect toy toy_closed))) !! h' =
      objects (snd toy_closed) !! h') /\
   eng (snd (fst (@connect toy toy_closed))) = (0 : @engine toy)).
Proof.
  split; [reflexivity|]. split; [reflexivity|].
  apply (@connect_opens_new_connection toy toy_closed 0); reflexivity.
Defined.
